(** * Revrag voice agent: the echo policy and the silence watcher

    A shallow embedding of [agent.py]: the [EchoAgent] class with its
    construction, [on_enter], [on_user_turn_completed] and the body of the
    [_silence_watcher] loop, followed by a discrete-event model of one
    session in which the framework delivers completed user turns and the
    event loop wakes the watcher from its sleep.

    Conventions of the embedding.
    - A Python [str] is a list of Unicode code points.
    - A reading of [time.time()] is a rational number of seconds; every
      finite float is one.  The rounding of the single float subtraction
      [time.time() - self._last_speech_time] is not modelled.
    - Each coroutine is atomic between two [await]s (asyncio schedules
      cooperatively on one thread), so a handler is a function from the agent
      before to the agent after, the calls it made and how it ended. *)

From Stdlib Require Import List Bool String Ascii NArith QArith Lqa Lia.
Import ListNotations.

Local Open Scope Q_scope.

(** ** Text *)

Module Text.

(** A Python string: its code points. *)
Definition text := list N.

(** An ASCII literal of the source as a Python string. *)
Definition str (s : string) : text := map N_of_ascii (list_ascii_of_string s).

(** [str.isspace] on one code point: the characters [str.strip()] removes
    when called without argument. *)
Definition py_isspace (c : N) : bool :=
  (((0x09 <=? c) && (c <=? 0x0D)) || ((0x1C <=? c) && (c <=? 0x1F))
   || (c =? 0x20) || (c =? 0x85) || (c =? 0xA0) || (c =? 0x1680)
   || ((0x2000 <=? c) && (c <=? 0x200A)) || (c =? 0x2028) || (c =? 0x2029)
   || (c =? 0x202F) || (c =? 0x205F) || (c =? 0x3000))%N.

Fixpoint lstrip (s : text) : text :=
  match s with
  | [] => []
  | c :: s' => if py_isspace c then lstrip s' else s
  end.

Definition rstrip (s : text) : text := rev (lstrip (rev s)).

(** [s.strip()] *)
Definition strip (s : text) : text := rstrip (lstrip s).

(** Truth value of a string in a condition: non-empty. *)
Definition truthy (s : text) : bool :=
  match s with [] => false | _ :: _ => true end.

(** A string made of white space only (the empty string included). *)
Definition blank (s : text) : Prop := Forall (fun c => py_isspace c = true) s.

End Text.
Import Text.

(** ** Handlers as state-passing computations *)

(** What a handler does to the outside world: [logger.info(msg)] and
    [self.session.say(msg, allow_interruptions=True)]. *)
Inductive effect : Type :=
| LogInfo (msg : text)
| Say (msg : text).

(** The text-to-speech engine, as seen by one [await self.session.say(...)]:
    the utterance is played, or the engine fails. *)
Inductive tts_result : Type := Played | EngineFailed.

Inductive exn : Type := SynthesisError.

Inductive outcome (A : Type) : Type :=
| Returned (a : A)
| Raised (e : exn).
Arguments Returned {A} a.
Arguments Raised {A} e.

(** The instance attributes of [EchoAgent] that the class itself assigns. *)
Record EchoAgent : Type := { _last_speech_time : Q }.

(** One run of a handler body. *)
Record run (A : Type) : Type :=
  { self_after : EchoAgent; calls : list effect; ended : outcome A }.

Arguments self_after {A} r.
Arguments calls {A} r.
Arguments ended {A} r.

Definition M (A : Type) : Type := EchoAgent -> run A.

Definition ret {A} (a : A) : M A :=
  fun self => {| self_after := self; calls := []; ended := Returned a |}.

(** Sequencing: an exception skips the rest (the source has no [try]). *)
Definition bind {A B} (m : M A) (k : A -> M B) : M B :=
  fun self =>
    let r := m self in
    match ended r with
    | Returned a =>
        let r' := k a (self_after r) in
        {| self_after := self_after r';
           calls := calls r ++ calls r';
           ended := ended r' |}
    | Raised e =>
        {| self_after := self_after r; calls := calls r; ended := Raised e |}
    end.

Notation "x <- m ;; k" := (bind m (fun x => k))
  (at level 61, m at next level, right associativity).
Notation "m ;; k" := (bind m (fun _ => k))
  (at level 61, right associativity).

Definition get_last_speech_time : M Q :=
  fun self =>
    {| self_after := self; calls := []; ended := Returned (_last_speech_time self) |}.

Definition set_last_speech_time (t : Q) : M unit :=
  fun _ =>
    {| self_after := {| _last_speech_time := t |}; calls := [];
       ended := Returned tt |}.

Definition logger_info (msg : text) : M unit :=
  fun self => {| self_after := self; calls := [LogInfo msg]; ended := Returned tt |}.

(** [await self.session.say(msg, allow_interruptions=True)] *)
Definition session_say (tts : tts_result) (msg : text) : M unit :=
  fun self =>
    {| self_after := self; calls := [Say msg];
       ended := match tts with
                | Played => Returned tt
                | EngineFailed => Raised SynthesisError
                end |}.

(** ** The agent *)

Definition Qltb (x y : Q) : bool :=
  match x ?= y with Lt => true | _ => false end.

Definition SILENCE_TIMEOUT_SECONDS : Q := 20.

(** The argument of [asyncio.sleep] in the watcher loop. *)
Definition WATCHER_SLEEP_SECONDS : Q := 5.

Definition REMINDER_TEXT : text :=
  str "I'm still here. Feel free to say something whenever you're ready.".

Definition GREETING_TEXT : text :=
  str "Hello! I'm your voice assistant. Say something and I'll echo it back to you.".

Definition REPROMPT_TEXT : text :=
  str "Sorry, I didn't catch that. Could you say that again?".

(** The message handed to [on_user_turn_completed]; [text_content] is [None]
    when the message carries no text. *)
Record ChatMessage : Type := { text_content : option text }.

(** [EchoAgent.__init__]; [now] is the reading of [time.time()]. *)
Definition EchoAgent_init (now : Q) : EchoAgent := {| _last_speech_time := now |}.

(** [EchoAgent.on_enter] up to the point where the watcher is spawned. *)
Definition on_enter (tts : tts_result) : M unit :=
  logger_info (str "EchoAgent entered session") ;;
  session_say tts GREETING_TEXT.

(** [new_message.text_content.strip() if new_message.text_content else ""] *)
Definition user_text_of (new_message : ChatMessage) : text :=
  match text_content new_message with
  | Some s => if truthy s then strip s else []
  | None => []
  end.

(** [EchoAgent.on_user_turn_completed] *)
Definition on_user_turn_completed (now : Q) (tts : tts_result)
    (new_message : ChatMessage) : M unit :=
  let user_text := user_text_of new_message in
  set_last_speech_time now ;;
  logger_info (str "User said: '" ++ user_text ++ str "'") ;;
  let response :=
    if truthy user_text
    then str "You said: " ++ user_text
    else REPROMPT_TEXT in
  logger_info (str "Agent responding: '" ++ response ++ str "'") ;;
  session_say tts response.

(** One turn of the [while True] loop of [_silence_watcher], from the return
    of [asyncio.sleep(5)] to the next sleep.  [reminder_played] is the
    coroutine's local variable; its new value is returned. *)
Definition _silence_watcher_iteration (now : Q) (tts : tts_result)
    (reminder_played : bool) : M bool :=
  last <- get_last_speech_time ;;
  let elapsed := now - last in
  if Qle_bool SILENCE_TIMEOUT_SECONDS elapsed && negb reminder_played then
    (* f"{SILENCE_TIMEOUT_SECONDS}s of silence - playing reminder" *)
    logger_info (str "20s of silence - playing reminder") ;;
    session_say tts REMINDER_TEXT ;;
    ret true
  else if Qltb elapsed SILENCE_TIMEOUT_SECONDS && reminder_played then
    ret false
  else
    ret reminder_played.

(** ** One session *)

(** The [_silence_watcher] task of the session: not yet spawned, suspended in
    [asyncio.sleep(5)] with the current value of its local [reminder_played],
    or ended by an exception that left its loop. *)
Inductive watcher_task : Type :=
| NotStarted
| Sleeping (reminder_played : bool)
| Died (e : exn).

Record Session : Type := { agent : EchoAgent; watcher : watcher_task }.

(** What happens to a running session.  Each event carries the reading of
    [time.time()] at that moment and, where the handler speaks, what the
    engine does with the utterance.
    - [SpeechStarted]: the voice-activity detector reports the start of user
      speech.  [AgentSession] handles it (it stops the playback);
      [EchoAgent] overrides no callback for it.
    - [UserTurnCompleted]: the framework calls [on_user_turn_completed].
    - [WatcherWake]: [asyncio.sleep(5)] returns in [_silence_watcher] and the
      loop body runs up to the next sleep.  A turn that completes while the
      body awaits the end of the reminder assigns [_last_speech_time] only,
      which the rest of the body ([reminder_played = True]) does not use, so
      delivering that turn after the body gives the same session. *)
Inductive event : Type :=
| SpeechStarted (now : Q)
| UserTurnCompleted (now : Q) (new_message : ChatMessage) (tts : tts_result)
| WatcherWake (now : Q) (tts : tts_result).

Definition event_time (ev : event) : Q :=
  match ev with
  | SpeechStarted now => now
  | UserTurnCompleted now _ _ => now
  | WatcherWake now _ => now
  end.

(** The calls of a session in order, each with the time of the event whose
    handler made it. *)
Definition journal : Type := list (Q * effect).

Definition stamp (now : Q) (effs : list effect) : journal :=
  map (fun e => (now, e)) effs.

(** [EchoAgent()] at [t_init], then [on_enter] at [t_enter]; the watcher is
    spawned by the last statement of [on_enter], after the greeting. *)
Definition session_start (t_init t_enter : Q) (tts : tts_result)
  : Session * journal :=
  let r := on_enter tts (EchoAgent_init t_init) in
  ({| agent := self_after r;
      watcher := match ended r with
                 | Returned _ => Sleeping false
                 | Raised _ => NotStarted
                 end |},
   stamp t_enter (calls r)).

Definition step (s : Session) (ev : event) : Session * journal :=
  match ev with
  | SpeechStarted _ => (s, [])
  | UserTurnCompleted now new_message tts =>
      let r := on_user_turn_completed now tts new_message (agent s) in
      ({| agent := self_after r; watcher := watcher s |}, stamp now (calls r))
  | WatcherWake now tts =>
      match watcher s with
      | Sleeping reminder_played =>
          let r := _silence_watcher_iteration now tts reminder_played (agent s) in
          ({| agent := self_after r;
              watcher := match ended r with
                         | Returned played => Sleeping played
                         | Raised e => Died e
                         end |},
           stamp now (calls r))
      | NotStarted | Died _ => (s, [])
      end
  end.

Fixpoint run_events (s : Session) (evs : list event) : Session * journal :=
  match evs with
  | [] => (s, [])
  | ev :: evs' =>
      let '(s1, j1) := step s ev in
      let '(s2, j2) := run_events s1 evs' in
      (s2, j1 ++ j2)
  end.

(** A whole session: construction, [on_enter], then the events. *)
Definition run_session (t_init t_enter : Q) (tts : tts_result) (evs : list event)
  : Session * journal :=
  let '(s0, j0) := session_start t_init t_enter tts in
  let '(s1, j1) := run_events s0 evs in
  (s1, j0 ++ j1).

(** ** Observations on a journal *)

Definition text_eqb (a b : text) : bool :=
  if list_eq_dec N.eq_dec a b then true else false.

Definition is_reminder (e : effect) : bool :=
  match e with
  | Say msg => text_eqb msg REMINDER_TEXT
  | LogInfo _ => false
  end.

(** The utterances handed to [session.say]. *)
Fixpoint spoken (effs : list effect) : list text :=
  match effs with
  | [] => []
  | Say msg :: effs' => msg :: spoken effs'
  | LogInfo _ :: effs' => spoken effs'
  end.

(** The times at which the reminder was triggered. *)
Definition reminder_times (j : journal) : list Q :=
  map fst (filter (fun e => is_reminder (snd e)) j).

Definition reminders (j : journal) : nat := List.length (reminder_times j).

(** ** Shapes of event sequences *)

Definition is_turn (ev : event) : bool :=
  match ev with UserTurnCompleted _ _ _ => true | _ => false end.

(** No turn completes: nothing assigns [_last_speech_time]. *)
Definition quiet (evs : list event) : Prop :=
  Forall (fun ev => is_turn ev = false) evs.

(** The clock readings never decrease, starting from [prev]. *)
Fixpoint chronological (prev : Q) (evs : list event) : Prop :=
  match evs with
  | [] => True
  | ev :: evs' => prev <= event_time ev /\ chronological (event_time ev) evs'
  end.

(** The watcher wakes at [now] and finds the timeout elapsed since [since]. *)
Definition late_wake (since : Q) (ev : event) : Prop :=
  match ev with
  | WatcherWake now _ => SILENCE_TIMEOUT_SECONDS <= now - since
  | _ => False
  end.

(** Wakes of a watcher whose sleeps are exact, during a silence that began at
    [since]; [p] is the time of the previous wake, or of the spawning of the
    watcher.  A sleep lasts its five seconds, and it begins at once after a
    loop body that did not stop to speak, as is any body that ran before the
    timeout had elapsed. *)
Fixpoint paced (since p : Q) (evs : list event) : Prop :=
  match evs with
  | [] => True
  | WatcherWake now _ :: evs' =>
      p + WATCHER_SLEEP_SECONDS <= now
      /\ (p - since < SILENCE_TIMEOUT_SECONDS -> now <= p + WATCHER_SLEEP_SECONDS)
      /\ paced since now evs'
  | _ :: _ => False
  end.

(** ** Counting turns and utterances *)

(** The time of the last completed turn of a sequence, if there is one. *)
Fixpoint last_turn_time (evs : list event) : option Q :=
  match evs with
  | [] => None
  | ev :: evs' =>
      match last_turn_time evs' with
      | Some t => Some t
      | None => if is_turn ev then Some (event_time ev) else None
      end
  end.

(** The number of completed turns. *)
Definition turns (evs : list event) : nat := List.length (filter is_turn evs).

(** Everything handed to [session.say] in a journal, in order. *)
Definition utterances (j : journal) : list text := spoken (map snd j).

(** A session whose watcher will say nothing before a turn completes: at
    [prev] it is not sleeping, or it has played its reminder and the timeout
    is over. *)
Definition hushed (s : Session) (prev : Q) : Prop :=
  (forall b, watcher s <> Sleeping b)
  \/ (watcher s = Sleeping true
      /\ SILENCE_TIMEOUT_SECONDS <= prev - _last_speech_time (agent s)).

(** ** The watcher at the grain of its awaits *)

(** Where the [_silence_watcher] coroutine is suspended: not yet spawned, in
    [asyncio.sleep(5)], in [session.say(REMINDER_TEXT, ...)], or nowhere any
    more. *)
Inductive watcher_point : Type :=
| Unborn
| Asleep (reminder_played : bool)
| InSay
| Ended (e : exn).

Record FineSession : Type :=
  { fine_agent : EchoAgent; fine_watcher : watcher_point }.

(** The events of a session when the return of the sleep ([SleepOver]) and
    the return of the reminder's [session.say] ([SayOver]) are told apart. *)
Inductive fine_event : Type :=
| Heard (now : Q)
| TurnDone (now : Q) (new_message : ChatMessage) (tts : tts_result)
| SleepOver (now : Q)
| SayOver (tts : tts_result).

Definition fine_step (s : FineSession) (ev : fine_event) : FineSession * journal :=
  match ev with
  | Heard _ => (s, [])
  | TurnDone now new_message tts =>
      let r := on_user_turn_completed now tts new_message (fine_agent s) in
      ({| fine_agent := self_after r; fine_watcher := fine_watcher s |},
       stamp now (calls r))
  | SleepOver now =>
      match fine_watcher s with
      | Asleep reminder_played =>
          let elapsed := now - _last_speech_time (fine_agent s) in
          if Qle_bool SILENCE_TIMEOUT_SECONDS elapsed && negb reminder_played then
            ({| fine_agent := fine_agent s; fine_watcher := InSay |},
             stamp now [LogInfo (str "20s of silence - playing reminder");
                        Say REMINDER_TEXT])
          else if Qltb elapsed SILENCE_TIMEOUT_SECONDS && reminder_played then
            ({| fine_agent := fine_agent s; fine_watcher := Asleep false |}, [])
          else (s, [])
      | Unborn | InSay | Ended _ => (s, [])
      end
  | SayOver tts =>
      match fine_watcher s with
      | InSay =>
          (* reminder_played = True, unless the await raised *)
          ({| fine_agent := fine_agent s;
              fine_watcher := match tts with
                              | Played => Asleep true
                              | EngineFailed => Ended SynthesisError
                              end |}, [])
      | Unborn | Asleep _ | Ended _ => (s, [])
      end
  end.

Fixpoint fine_run (s : FineSession) (evs : list fine_event) : FineSession * journal :=
  match evs with
  | [] => (s, [])
  | ev :: evs' =>
      let '(s1, j1) := fine_step s ev in
      let '(s2, j2) := fine_run s1 evs' in
      (s2, j1 ++ j2)
  end.

(** A session between two loop bodies of the watcher, seen at the finer grain. *)
Definition refine (s : Session) : FineSession :=
  {| fine_agent := agent s;
     fine_watcher := match watcher s with
                     | NotStarted => Unborn
                     | Sleeping b => Asleep b
                     | Died e => Ended e
                     end |}.

Definition fine_of (ev : event) : fine_event :=
  match ev with
  | SpeechStarted now => Heard now
  | UserTurnCompleted now m tts => TurnDone now m tts
  | WatcherWake now _ => SleepOver now
  end.

Definition is_wake (ev : event) : bool :=
  match ev with WatcherWake _ _ => true | _ => false end.

(** ** The worker: [prewarm] and [entrypoint] *)

Module Worker.

(** A Python object the code only passes around, by identity. *)
Definition object : Type := N.

(** [proc.userdata], a [dict] with string keys, in insertion order. *)
Definition dict : Type := list (string * object).

(** [d.get(k)]: [d[k]] raises [KeyError] where this is [None]. *)
Fixpoint getitem (d : dict) (k : string) : option object :=
  match d with
  | [] => None
  | (k', v) :: d' => if String.eqb k' k then Some v else getitem d' k
  end.

(** [d[k] = v] *)
Fixpoint setitem (d : dict) (k : string) (v : object) : dict :=
  match d with
  | [] => [(k, v)]
  | (k', v') :: d' =>
      if String.eqb k' k then (k, v) :: d' else (k', v') :: setitem d' k v
  end.

Record JobProcess : Type := { userdata : dict }.

(** [prewarm], given the object that [silero.VAD.load()] returned. *)
Definition prewarm (loaded : object) (proc : JobProcess) : JobProcess :=
  {| userdata := setitem (userdata proc) "vad" loaded |}.

(** The calls of [entrypoint] into the framework and the plugins. *)
Inductive external : Type :=
| CtxConnect
| CtxWaitForParticipant
| DeepgramSTT
| DeepgramTTS
| NewAgentSession
| SessionStart.

(** What [entrypoint] finds outside: the name of the room, the identity of the
    participant who joins, the reading of [time.time()] when the agent is
    built, and which of the calls raise. *)
Record World : Type :=
  { room_name : text;
    participant_identity : text;
    clock : Q;
    raises : external -> bool }.

Inductive failure : Type :=
| KeyError (key : string)
| CallFailed (call : external).

(** What [entrypoint] does, in order; a call is listed when it is made,
    whether or not it then raises. *)
Inductive action : Type :=
| Info (msg : text)
| Connect
| WaitForParticipant
| STT (model : string)
| TTS (model : string)
| AgentSession (vad : object)
| Start (agent : EchoAgent).

Definition W (A : Type) : Type := (list action * (A + failure))%type.

Definition wret {A} (a : A) : W A := ([], inl a).

Definition wbind {A B} (m : W A) (k : A -> W B) : W B :=
  match snd m with
  | inl a => (fst m ++ fst (k a), snd (k a))
  | inr f => (fst m, inr f)
  end.

Declare Scope worker_scope.
Notation "x <- m ;; k" := (wbind m (fun x => k))
  (at level 61, m at next level, right associativity) : worker_scope.
Notation "m ;; k" := (wbind m (fun _ => k))
  (at level 61, right associativity) : worker_scope.
Local Open Scope worker_scope.

Definition info (msg : text) : W unit := ([Info msg], inl tt).

Definition call (w : World) (c : external) (a : action) : W unit :=
  ([a], if raises w c then inr (CallFailed c) else inl tt).

(** [ctx.proc.userdata[key]] *)
Definition lookup (proc : JobProcess) (key : string) : W object :=
  match getitem (userdata proc) key with
  | Some v => ([], inl v)
  | None => ([], inr (KeyError key))
  end.

(** How [entrypoint] ends: it raises, or it reaches
    [await asyncio.Event().wait()], which waits on an event nobody sets. *)
Inductive ending : Type :=
| WaitsForever
| Raises (f : failure).

Definition entrypoint_body (w : World) (proc : JobProcess) : W unit :=
  info (str "Agent joining room: " ++ room_name w) ;;
  call w CtxConnect Connect ;;
  info (str "Waiting for participant...") ;;
  call w CtxWaitForParticipant WaitForParticipant ;;
  info (str "Participant connected: " ++ participant_identity w) ;;
  vad <- lookup proc "vad" ;;
  call w DeepgramSTT (STT "nova-2") ;;
  call w DeepgramTTS (TTS "aura-asteria-en") ;;
  call w NewAgentSession (AgentSession vad) ;;
  call w SessionStart (Start (EchoAgent_init (clock w))) ;;
  info (str "Agent session started.").

(** [entrypoint] *)
Definition entrypoint (w : World) (proc : JobProcess) : list action * ending :=
  let r := entrypoint_body w proc in
  (fst r, match snd r with inl _ => WaitsForever | inr f => Raises f end).

(** Nothing outside raises. *)
Definition calm (w : World) : Prop := forall c, raises w c = false.

End Worker.

(** ** Scenarios *)

Module Scenario.

Definition utterance (s : string) : ChatMessage := {| text_content := Some (str s) |}.

(** The watcher wakes at each of the given times and the engine works. *)
Definition wakes (ts : list Q) : list event := map (fun t => WatcherWake t Played) ts.

(** The agent is built at 0 and the greeting is over at 3. *)
Definition greeted : Session := fst (session_start 0 3 Played).

(** The user stays silent from 0 and completes a turn at 21, between the wake
    at 18 and the wake at 23. *)
Definition before_turn : list event := wakes [8; 13; 18].
Definition overrun : list event :=
  before_turn ++ [UserTurnCompleted 21 (utterance "hi") Played] ++ wakes [23; 28; 33].

(** The reminder is triggered at 23 and played until 27; the user completes a
    turn at 30, stays silent and completes the next one at 51. *)
Definition first_silence : list event := wakes [8; 13; 18; 23].
Definition second_silence : list event := wakes [32; 37; 42; 47].
Definition resumed : list event :=
  first_silence ++ [UserTurnCompleted 30 (utterance "one") Played]
  ++ second_silence ++ [UserTurnCompleted 51 (utterance "two") Played]
  ++ wakes [52; 57].

(** The session once the reminder of 23 has been triggered, and once the turn
    of 30 has been answered. *)
Definition fired : Session := fst (run_events greeted first_silence).
Definition answered : Session :=
  fst (step fired (UserTurnCompleted 30 (utterance "one") Played)).


(** The agent is built at 0, and the greeting is over only at 22. *)
Definition greeted_late : Session := fst (session_start 0 22 Played).
Definition after_late_greeting : list event := wakes [27; 32; 37].

End Scenario.

(** * Properties *)

(** ** Trimming *)

Section Trimming.

Lemma lstrip_blank (s : text) : blank s -> lstrip s = [].
Proof.
  induction 1 as [|c s Hc _ IH]; cbn; [reflexivity|].
  now rewrite Hc.
Qed.

Lemma lstrip_nil_blank (s : text) : lstrip s = [] -> blank s.
Proof.
  induction s as [|c s IH]; cbn; [constructor|].
  destruct (py_isspace c) eqn:Hc; [|discriminate].
  intros H. constructor; [exact Hc|exact (IH H)].
Qed.

Lemma blank_rev (s : text) : blank s -> blank (rev s).
Proof. unfold blank. apply Forall_rev. Qed.

Lemma strip_blank (s : text) : blank s -> strip s = [].
Proof.
  intros H. unfold strip, rstrip.
  rewrite (lstrip_blank s H). reflexivity.
Qed.

(** What [lstrip] removes is white space, and what it leaves does not start
    with white space. *)
Lemma lstrip_split (s : text) :
  exists pre, s = pre ++ lstrip s /\ blank pre.
Proof.
  induction s as [|c s [pre [E B]]]; cbn.
  - exists []. split; [reflexivity|constructor].
  - destruct (py_isspace c) eqn:Hc.
    + exists (c :: pre). cbn. split; [now rewrite <- E|now constructor].
    + exists []. split; [reflexivity|constructor].
Qed.

Lemma lstrip_head (s : text) (c : N) (r : text) :
  lstrip s = c :: r -> py_isspace c = false.
Proof.
  induction s as [|d s IH]; cbn; [discriminate|].
  destruct (py_isspace d) eqn:Hd; [exact IH|].
  intros E. injection E as -> _. exact Hd.
Qed.

(** [strip] removes a blank prefix and a blank suffix and nothing else. *)
Lemma strip_split (s : text) :
  exists pre post, s = pre ++ strip s ++ post /\ blank pre /\ blank post.
Proof.
  destruct (lstrip_split s) as [pre [E B]].
  destruct (lstrip_split (rev (lstrip s))) as [tsop [E' B']].
  exists pre, (rev tsop). unfold strip, rstrip.
  split; [|split; [exact B|now apply blank_rev]].
  rewrite <- rev_app_distr, <- E', rev_involutive. exact E.
Qed.

Lemma strip_nil_blank (s : text) : strip s = [] -> blank s.
Proof.
  intros H.
  destruct (strip_split s) as [pre [post [E [B B']]]].
  rewrite H in E. cbn in E. rewrite E.
  unfold blank. apply Forall_app. split; assumption.
Qed.

(** The trimmed string neither starts nor ends with white space. *)
Lemma strip_first (s : text) (c : N) (r : text) :
  strip s = c :: r -> py_isspace c = false.
Proof.
  unfold strip, rstrip. intros E.
  destruct (lstrip s) as [|d l] eqn:El.
  - discriminate E.
  - pose proof (lstrip_head _ _ _ El) as Hd.
    destruct (lstrip_split (rev (d :: l))) as [tsop [E' _]].
    apply (f_equal (@rev N)) in E'.
    rewrite rev_involutive, rev_app_distr, E in E'.
    cbn in E'. injection E' as -> _. exact Hd.
Qed.

Lemma strip_last (s r : text) (c : N) :
  strip s = r ++ [c] -> py_isspace c = false.
Proof.
  unfold strip, rstrip. intros E.
  apply (f_equal (@rev N)) in E.
  rewrite rev_involutive, rev_app_distr in E. cbn in E.
  exact (lstrip_head _ _ _ E).
Qed.

End Trimming.

(** ** The handlers, one call at a time *)

Section Handlers.

(** The reply of the echo policy to a trimmed transcript. *)
Lemma turn_calls (now : Q) (tts : tts_result) (m : ChatMessage) (self : EchoAgent) :
  calls (on_user_turn_completed now tts m self) =
  [ LogInfo (str "User said: '" ++ user_text_of m ++ str "'");
    LogInfo (str "Agent responding: '"
             ++ (if truthy (user_text_of m)
                 then str "You said: " ++ user_text_of m
                 else REPROMPT_TEXT)
             ++ str "'");
    Say (if truthy (user_text_of m)
         then str "You said: " ++ user_text_of m
         else REPROMPT_TEXT) ].
Proof. reflexivity. Qed.

Lemma turn_self_after (now : Q) (tts : tts_result) (m : ChatMessage) (self : EchoAgent) :
  self_after (on_user_turn_completed now tts m self) = {| _last_speech_time := now |}.
Proof. reflexivity. Qed.

Lemma turn_ended (now : Q) (tts : tts_result) (m : ChatMessage) (self : EchoAgent) :
  ended (on_user_turn_completed now tts m self) =
  match tts with Played => Returned tt | EngineFailed => Raised SynthesisError end.
Proof. destruct tts; reflexivity. Qed.

Lemma Qltb_lt (x y : Q) : Qltb x y = true <-> x < y.
Proof.
  unfold Qltb. rewrite Qlt_alt.
  destruct (x ?= y); split; congruence.
Qed.

Lemma Qltb_ge (x y : Q) : Qltb x y = false <-> y <= x.
Proof.
  destruct (Qltb x y) eqn:E.
  - apply Qltb_lt in E. split; [discriminate|lra].
  - split; [intros _|reflexivity].
    destruct (Qlt_le_dec x y) as [H|H]; [|exact H].
    apply Qltb_lt in H. congruence.
Qed.

Lemma Qleb_gt (x y : Q) : Qle_bool x y = false <-> y < x.
Proof.
  destruct (Qle_bool x y) eqn:E.
  - apply Qle_bool_iff in E. split; [discriminate|lra].
  - split; [intros _|reflexivity].
    destruct (Qlt_le_dec y x) as [H|H]; [exact H|].
    apply Qle_bool_iff in H. congruence.
Qed.

(** The three ways through the body of the watcher loop. *)
Lemma watcher_fire (now : Q) (tts : tts_result) (self : EchoAgent) :
  SILENCE_TIMEOUT_SECONDS <= now - _last_speech_time self ->
  _silence_watcher_iteration now tts false self =
  {| self_after := self;
     calls := [LogInfo (str "20s of silence - playing reminder"); Say REMINDER_TEXT];
     ended := match tts with
              | Played => Returned true
              | EngineFailed => Raised SynthesisError
              end |}.
Proof.
  intros H. apply Qle_bool_iff in H.
  unfold _silence_watcher_iteration, bind, get_last_speech_time. cbn.
  rewrite H. destruct tts; reflexivity.
Qed.

Lemma watcher_rearm (now : Q) (tts : tts_result) (self : EchoAgent) :
  now - _last_speech_time self < SILENCE_TIMEOUT_SECONDS ->
  _silence_watcher_iteration now tts true self =
  {| self_after := self; calls := []; ended := Returned false |}.
Proof.
  intros H. pose proof (proj2 (Qltb_lt _ _) H) as H'.
  unfold _silence_watcher_iteration, bind, get_last_speech_time. cbn.
  rewrite H', andb_false_r. reflexivity.
Qed.

Lemma watcher_wait (now : Q) (tts : tts_result) (self : EchoAgent) :
  now - _last_speech_time self < SILENCE_TIMEOUT_SECONDS ->
  _silence_watcher_iteration now tts false self =
  {| self_after := self; calls := []; ended := Returned false |}.
Proof.
  intros H. pose proof (proj2 (Qleb_gt _ _) H) as H'.
  unfold _silence_watcher_iteration, bind, get_last_speech_time. cbn.
  rewrite H', andb_false_r. reflexivity.
Qed.

Lemma watcher_spent (now : Q) (tts : tts_result) (self : EchoAgent) :
  SILENCE_TIMEOUT_SECONDS <= now - _last_speech_time self ->
  _silence_watcher_iteration now tts true self =
  {| self_after := self; calls := []; ended := Returned true |}.
Proof.
  intros H. pose proof (proj2 (Qltb_ge _ _) H) as H'.
  unfold _silence_watcher_iteration, bind, get_last_speech_time. cbn.
  rewrite H', andb_false_r. reflexivity.
Qed.

End Handlers.

(** ** Sessions *)

Section Sessions.

Lemma run_events_cons (s : Session) (ev : event) (evs : list event) :
  run_events s (ev :: evs) =
  (fst (run_events (fst (step s ev)) evs),
   snd (step s ev) ++ snd (run_events (fst (step s ev)) evs)).
Proof.
  cbn [run_events]. destruct (step s ev) as [s1 j1]. cbn [fst snd].
  destruct (run_events s1 evs) as [s2 j2]. reflexivity.
Qed.

Lemma reminder_times_app (j1 j2 : journal) :
  reminder_times (j1 ++ j2) = reminder_times j1 ++ reminder_times j2.
Proof. unfold reminder_times. now rewrite filter_app, map_app. Qed.

Lemma reminders_app (j1 j2 : journal) :
  reminders (j1 ++ j2) = (reminders j1 + reminders j2)%nat.
Proof. unfold reminders. now rewrite reminder_times_app, length_app. Qed.

Lemma text_eqb_neq (a b : text) : a <> b -> text_eqb a b = false.
Proof. unfold text_eqb. destruct (list_eq_dec N.eq_dec a b); congruence. Qed.

Lemma text_eqb_refl (a : text) : text_eqb a a = true.
Proof. unfold text_eqb. destruct (list_eq_dec N.eq_dec a a); congruence. Qed.

(** Neither an echo nor the reprompt nor the greeting is the reminder. *)
Lemma echo_not_reminder (t : text) : is_reminder (Say (str "You said: " ++ t)) = false.
Proof. apply text_eqb_neq. intros E. cbv in E. discriminate E. Qed.

Lemma reprompt_not_reminder : is_reminder (Say REPROMPT_TEXT) = false.
Proof. apply text_eqb_neq. intros E. cbv in E. discriminate E. Qed.

Lemma greeting_not_reminder : is_reminder (Say GREETING_TEXT) = false.
Proof. apply text_eqb_neq. intros E. cbv in E. discriminate E. Qed.

Lemma turn_no_reminder (now : Q) (tts : tts_result) (m : ChatMessage) (self : EchoAgent) :
  reminder_times (stamp now (calls (on_user_turn_completed now tts m self))) = [].
Proof.
  rewrite turn_calls. unfold reminder_times, stamp.
  cbn [map filter snd is_reminder].
  destruct (truthy (user_text_of m)).
  - pose proof (echo_not_reminder (user_text_of m)) as E. cbn [is_reminder] in E.
    now rewrite E.
  - pose proof reprompt_not_reminder as E. cbn [is_reminder] in E.
    now rewrite E.
Qed.

Lemma fire_reminder_times (now : Q) :
  reminder_times
    (stamp now [LogInfo (str "20s of silence - playing reminder"); Say REMINDER_TEXT])
  = [now].
Proof.
  unfold reminder_times, stamp. cbn [map filter snd is_reminder].
  now rewrite text_eqb_refl.
Qed.

(** The four ways a wake of a sleeping watcher goes. *)
Lemma step_fire (s : Session) (now : Q) (tts : tts_result) :
  watcher s = Sleeping false ->
  SILENCE_TIMEOUT_SECONDS <= now - _last_speech_time (agent s) ->
  step s (WatcherWake now tts) =
  ({| agent := agent s;
      watcher := match tts with
                 | Played => Sleeping true
                 | EngineFailed => Died SynthesisError
                 end |},
   stamp now [LogInfo (str "20s of silence - playing reminder"); Say REMINDER_TEXT]).
Proof.
  intros W H. cbn [step]. rewrite W, (watcher_fire _ _ _ H).
  destruct tts; reflexivity.
Qed.

Lemma step_rearm (s : Session) (now : Q) (tts : tts_result) :
  watcher s = Sleeping true ->
  now - _last_speech_time (agent s) < SILENCE_TIMEOUT_SECONDS ->
  step s (WatcherWake now tts) = ({| agent := agent s; watcher := Sleeping false |}, []).
Proof. intros W H. cbn [step]. now rewrite W, (watcher_rearm _ _ _ H). Qed.

Lemma step_wait (s : Session) (now : Q) (tts : tts_result) :
  watcher s = Sleeping false ->
  now - _last_speech_time (agent s) < SILENCE_TIMEOUT_SECONDS ->
  step s (WatcherWake now tts) = (s, []).
Proof.
  intros W H. cbn [step]. rewrite W, (watcher_wait _ _ _ H).
  destruct s; cbn in *. now subst.
Qed.

Lemma step_spent (s : Session) (now : Q) (tts : tts_result) :
  watcher s = Sleeping true ->
  SILENCE_TIMEOUT_SECONDS <= now - _last_speech_time (agent s) ->
  step s (WatcherWake now tts) = (s, []).
Proof.
  intros W H. cbn [step]. rewrite W, (watcher_spent _ _ _ H).
  destruct s; cbn in *. now subst.
Qed.

Lemma step_not_sleeping (s : Session) (now : Q) (tts : tts_result) :
  (forall b, watcher s <> Sleeping b) ->
  step s (WatcherWake now tts) = (s, []).
Proof.
  intros W. cbn [step]. destruct (watcher s) as [|b|e]; try reflexivity.
  now destruct (W b).
Qed.

(** Before the timeout a wake triggers nothing and leaves the flag clear. *)
Lemma step_early (s : Session) (now : Q) (tts : tts_result) (b : bool) :
  watcher s = Sleeping b ->
  now - _last_speech_time (agent s) < SILENCE_TIMEOUT_SECONDS ->
  step s (WatcherWake now tts) = ({| agent := agent s; watcher := Sleeping false |}, []).
Proof.
  intros W H. destruct b.
  - now apply step_rearm.
  - rewrite (step_wait s now tts W H). destruct s; cbn in *. now subst.
Qed.

(** Only a completed turn changes the agent. *)
Lemma step_quiet_agent (s : Session) (ev : event) :
  is_turn ev = false -> agent (fst (step s ev)) = agent s.
Proof.
  destruct ev as [now|now m tts|now tts]; cbn [is_turn]; try discriminate; intros _.
  - reflexivity.
  - cbn [step]. destruct (watcher s) as [|b|e]; try reflexivity.
    cbn [fst agent].
    unfold _silence_watcher_iteration, bind, get_last_speech_time. cbn.
    destruct (_ && _); [destruct tts; reflexivity|].
    destruct (_ && _); reflexivity.
Qed.

(** A watcher that is not sleeping stays silent for good. *)
Lemma run_not_sleeping (evs : list event) (s : Session) :
  (forall b, watcher s <> Sleeping b) -> quiet evs -> run_events s evs = (s, []).
Proof.
  induction evs as [|ev evs IH]; intros W Q; [reflexivity|].
  inversion Q as [|? ? Hev Q']; subst.
  rewrite run_events_cons.
  assert (E : step s ev = (s, [])).
  { destruct ev as [now|now m tts|now tts]; [reflexivity|discriminate Hev|].
    now apply step_not_sleeping. }
  rewrite E. cbn [fst snd]. now rewrite (IH W Q').
Qed.

(** Once the reminder has been played and the clock stands still, later wakes
    change nothing. *)
Lemma run_spent (evs : list event) (s : Session) (prev : Q) :
  watcher s = Sleeping true ->
  SILENCE_TIMEOUT_SECONDS <= prev - _last_speech_time (agent s) ->
  chronological prev evs -> quiet evs ->
  run_events s evs = (s, []).
Proof.
  revert prev.
  induction evs as [|ev evs IH]; intros prev W H C Q; [reflexivity|].
  inversion Q as [|? ? Hev Q']; subst. destruct C as [C1 C2].
  rewrite run_events_cons.
  assert (E : step s ev = (s, [])).
  { destruct ev as [now|now m tts|now tts]; [reflexivity|discriminate Hev|].
    apply step_spent; [exact W|]. cbn [event_time] in C1. lra. }
  rewrite E. cbn [fst snd].
  rewrite (IH (event_time ev) W); [reflexivity| |exact C2|exact Q'].
  lra.
Qed.

(** After the reminder has been triggered nothing more is said. *)
Lemma run_after_fire (evs : list event) (s : Session) (now : Q) (tts : tts_result) :
  watcher s = Sleeping false ->
  SILENCE_TIMEOUT_SECONDS <= now - _last_speech_time (agent s) ->
  chronological now evs -> quiet evs ->
  snd (run_events s (WatcherWake now tts :: evs)) =
  stamp now [LogInfo (str "20s of silence - playing reminder"); Say REMINDER_TEXT].
Proof.
  intros W H C Q. rewrite run_events_cons, (step_fire s now tts W H). cbn [fst snd].
  destruct tts.
  - rewrite (run_spent evs _ now); [now rewrite app_nil_r|reflexivity|exact H|exact C|exact Q].
  - rewrite run_not_sleeping; [now rewrite app_nil_r| |exact Q].
    cbn. intros b. discriminate.
Qed.

End Sessions.

(** ** Silence intervals *)

Section Silence.




(** An armed watcher that wakes after the timeout triggers the reminder once. *)
Lemma run_armed_once (evs : list event) (s : Session) (prev : Q) :
  watcher s = Sleeping false ->
  chronological prev evs -> quiet evs ->
  Exists (late_wake (_last_speech_time (agent s))) evs ->
  exists t, reminder_times (snd (run_events s evs)) = [t]
            /\ SILENCE_TIMEOUT_SECONDS <= t - _last_speech_time (agent s).
Proof.
  revert prev. induction evs as [|ev evs IH]; intros prev W C Q X.
  - inversion X.
  - inversion Q as [|? ? Hev Q']; subst. destruct C as [C1 C2].
    destruct ev as [now|now m tts|now tts]; [|discriminate Hev|].
    + rewrite run_events_cons. cbn [step fst snd app].
      inversion X as [? ? L|? ? X']; subst; [destruct L|].
      exact (IH _ W C2 Q' X').
    + cbn [event_time] in *.
      destruct (Qlt_le_dec (now - _last_speech_time (agent s))
                           SILENCE_TIMEOUT_SECONDS) as [H|H].
      * rewrite run_events_cons, (step_wait s now tts W H). cbn [fst snd app].
        inversion X as [? ? L|? ? X']; subst; [cbn in L; lra|].
        exact (IH _ W C2 Q' X').
      * exists now. rewrite (run_after_fire evs s now tts W H C2 Q').
        split; [apply fire_reminder_times|exact H].
Qed.

Lemma paced_chronological (since : Q) (evs : list event) (p : Q) :
  paced since p evs -> chronological p evs /\ quiet evs.
Proof.
  revert p. induction evs as [|ev evs IH]; intros p P.
  - split; constructor.
  - destruct ev as [now|now m tts|now tts]; [destruct P|destruct P|].
    destruct P as [P1 [P2 P3]]. destruct (IH _ P3) as [C Q].
    split.
    + split; [|exact C]. cbn [event_time]. unfold WATCHER_SLEEP_SECONDS in P1. lra.
    + constructor; [reflexivity|exact Q].
Qed.

(** With exact sleeps an armed watcher triggers the reminder less than one
    sleep after the timeout. *)
Lemma run_paced_armed (evs : list event) (s : Session) (p : Q) :
  watcher s = Sleeping false ->
  p - _last_speech_time (agent s) < SILENCE_TIMEOUT_SECONDS ->
  paced (_last_speech_time (agent s)) p evs ->
  Forall (fun t => SILENCE_TIMEOUT_SECONDS <= t - _last_speech_time (agent s)
                   /\ t - _last_speech_time (agent s)
                      < SILENCE_TIMEOUT_SECONDS + WATCHER_SLEEP_SECONDS)
         (reminder_times (snd (run_events s evs))).
Proof.
  revert p. induction evs as [|ev evs IH]; intros p W H P; [constructor|].
  destruct ev as [now|now m tts|now tts]; [destruct P|destruct P|].
  destruct P as [P1 [P2 P3]]. specialize (P2 H).
  destruct (Qlt_le_dec (now - _last_speech_time (agent s))
                       SILENCE_TIMEOUT_SECONDS) as [E|L].
  - rewrite run_events_cons, (step_wait s now tts W E). cbn [fst snd app].
    exact (IH now W E P3).
  - destruct (paced_chronological _ _ _ P3) as [C Q].
    rewrite (run_after_fire evs s now tts W L C Q), fire_reminder_times.
    constructor; [|constructor]. split; [exact L|lra].
Qed.

End Silence.

(** ** The echo policy *)

(** C1.  What [on_user_turn_completed] says depends on the transcript alone,
    whatever the agent's state, the time and the engine: a transcript that is
    not empty once trimmed is answered by "You said: " followed by the
    trimmed transcript, the empty transcript by the fixed reprompt, and
    "hello world" by "You said: hello world". *)
Theorem echo_response (self : EchoAgent) (now : Q) (tts : tts_result) (t : text) :
  (strip t <> [] ->
   spoken (calls (on_user_turn_completed now tts {| text_content := Some t |} self))
   = [str "You said: " ++ strip t])
  /\ (t = [] ->
      spoken (calls (on_user_turn_completed now tts {| text_content := Some t |} self))
      = [str "Sorry, I didn't catch that. Could you say that again?"])
  /\ spoken (calls (on_user_turn_completed now tts
                      {| text_content := Some (str "hello world") |} self))
     = [str "You said: hello world"].
Proof.
  rewrite !turn_calls. cbn [spoken].
  split; [|split].
  - intros H. unfold user_text_of. cbn [text_content].
    destruct t as [|c t]; [now destruct H|]. cbn [truthy].
    destruct (strip (c :: t)) as [|d r]; [now destruct H|reflexivity].
  - intros ->. reflexivity.
  - reflexivity.
Qed.

Lemma echo_response_witness :
  spoken (calls (on_user_turn_completed 7 Played
                   (Scenario.utterance "  good morning ") (EchoAgent_init 0)))
  = [str "You said: good morning"]
  /\ spoken (calls (on_user_turn_completed 7 Played
                      {| text_content := Some [] |} (EchoAgent_init 0)))
     = [str "Sorry, I didn't catch that. Could you say that again?"].
Proof.
  split.
  - apply (proj1 (echo_response (EchoAgent_init 0) 7 Played (str "  good morning "))).
    vm_compute. discriminate.
  - apply (proj1 (proj2 (echo_response (EchoAgent_init 0) 7 Played []))).
    reflexivity.
Defined.

(** C10.  A message without text and a transcript of white space only are
    handled exactly as the empty transcript is: the whole run of the handler
    is the same, the fixed reprompt is the one utterance, and the handler
    returns normally when the engine plays it. *)
Theorem blank_transcript_reprompts (self : EchoAgent) (now : Q) (tts : tts_result)
    (m : ChatMessage) :
  (text_content m = None \/ exists t, text_content m = Some t /\ blank t) ->
  on_user_turn_completed now tts m self
  = on_user_turn_completed now tts {| text_content := Some [] |} self
  /\ spoken (calls (on_user_turn_completed now tts m self))
     = [str "Sorry, I didn't catch that. Could you say that again?"]
  /\ ended (on_user_turn_completed now Played m self) = Returned tt.
Proof.
  intros H.
  assert (U : user_text_of m = []).
  { unfold user_text_of. destruct H as [->|[t [-> B]]]; [reflexivity|].
    rewrite (strip_blank t B). now destruct (truthy t). }
  split; [|split].
  - unfold on_user_turn_completed. rewrite U. reflexivity.
  - rewrite turn_calls, U. reflexivity.
  - apply (turn_ended now Played m self).
Qed.

Lemma blank_transcript_reprompts_witness :
  spoken (calls (on_user_turn_completed 7 Played
                   {| text_content := Some [0x20; 0x09; 0x0A; 0xA0; 0x3000]%N |}
                   (EchoAgent_init 0)))
  = [str "Sorry, I didn't catch that. Could you say that again?"]
  /\ spoken (calls (on_user_turn_completed 7 Played
                      {| text_content := None |} (EchoAgent_init 0)))
     = [str "Sorry, I didn't catch that. Could you say that again?"].
Proof.
  split.
  - apply (blank_transcript_reprompts (EchoAgent_init 0) 7 Played
             {| text_content := Some [0x20; 0x09; 0x0A; 0xA0; 0x3000]%N |}).
    right. eexists. split; [reflexivity|].
    repeat constructor.
  - apply (blank_transcript_reprompts (EchoAgent_init 0) 7 Played
             {| text_content := None |}).
    left. reflexivity.
Defined.

(** ** The activity clock and the reminder flag *)

(** C2, as stated, fails: the start of user speech does not reach the agent.
    Built at 0 and greeted, the session sees the user start speaking at 10 and
    the timestamp is still 0. *)
Lemma speech_started_keeps_clock :
  _last_speech_time (agent (fst (step Scenario.greeted (SpeechStarted 10)))) = 0
  /\ ~ _last_speech_time (agent (fst (step Scenario.greeted (SpeechStarted 10)))) == 10.
Proof. split; [reflexivity|]. cbn. intros E. discriminate E. Qed.

(** C2, amended.  The timestamp is written when the agent is built and each
    time a user turn completes, before the answer is handed to the engine and
    whatever the engine then does; the start of user speech leaves the agent
    as it is. *)
Theorem clock_written_at_turn_completion (s : Session) (now : Q)
    (m : ChatMessage) (tts : tts_result) :
  _last_speech_time (EchoAgent_init now) = now
  /\ _last_speech_time (agent (fst (step s (UserTurnCompleted now m tts)))) = now
  /\ _last_speech_time (self_after (on_user_turn_completed now tts m (agent s))) = now
  /\ step s (SpeechStarted now) = (s, []).
Proof. repeat split. Qed.

(** C5, as stated, fails: the flag is true after the reminder at 23, and it is
    still true right after the turn completed at 30 has moved the timestamp. *)
Lemma flag_survives_clock_update :
  watcher Scenario.fired = Sleeping true
  /\ _last_speech_time (agent Scenario.fired) = 0
  /\ _last_speech_time (agent Scenario.answered) = 30
  /\ watcher Scenario.answered = Sleeping true
  /\ watcher Scenario.answered <> Sleeping false.
Proof. repeat split. discriminate. Qed.

(** C5, amended.  A completed turn moves the timestamp and leaves the flag as
    it was; the flag is cleared by the watcher the next time it wakes before
    the timeout has elapsed again, and that wake says nothing. *)
Theorem flag_cleared_at_next_early_wake (s : Session) (now : Q) (m : ChatMessage)
    (tts : tts_result) (b : bool) (p : Q) (tts' : tts_result) :
  watcher s = Sleeping b ->
  p - now < SILENCE_TIMEOUT_SECONDS ->
  let answered := fst (step s (UserTurnCompleted now m tts)) in
  watcher answered = Sleeping b
  /\ step answered (WatcherWake p tts')
     = ({| agent := {| _last_speech_time := now |}; watcher := Sleeping false |}, []).
Proof.
  intros W H answered. split; [exact W|].
  apply (step_early answered p tts' b W). exact H.
Qed.

Lemma flag_cleared_at_next_early_wake_witness :
  watcher Scenario.answered = Sleeping true
  /\ step Scenario.answered (WatcherWake 32 Played)
     = ({| agent := {| _last_speech_time := 30 |}; watcher := Sleeping false |}, []).
Proof.
  apply (flag_cleared_at_next_early_wake Scenario.fired
           30 (Scenario.utterance "one") Played true 32 Played).
  - reflexivity.
  - reflexivity.
Defined.

(** ** The silence watchdog *)







(** C7, as stated, fails in two ways.  The silence from 0 to the turn
    completed at 21 reaches the timeout and no reminder is ever triggered for
    it; and when the greeting of an agent built at 0 is over only at 22, the
    watcher first wakes at 27 and the reminder is triggered 7 seconds after
    the timeout, more than one sleep. *)
Lemma reminder_not_within_one_sleep :
  (paced 0 3 Scenario.before_turn
   /\ SILENCE_TIMEOUT_SECONDS <= 21 - 0
   /\ reminder_times (snd (run_events Scenario.greeted Scenario.overrun)) = [])
  /\ (paced 0 22 Scenario.after_late_greeting
      /\ reminder_times
           (snd (run_events Scenario.greeted_late Scenario.after_late_greeting)) = [27]
      /\ ~ 27 - 0 <= SILENCE_TIMEOUT_SECONDS + WATCHER_SLEEP_SECONDS).
Proof.
  split; (split; [|split]).
  - cbn. repeat split; try discriminate; intros _; discriminate.
  - discriminate.
  - reflexivity.
  - cbn. repeat split; try discriminate; intros H; now destruct H.
  - reflexivity.
  - intros H. now apply H.
Qed.

(** C7, amended.  The watcher sleeps 5 seconds between two checks, less than
    the 20 seconds of the timeout.  In a silence interval in which the watcher
    sleeps exactly that long and first wakes before the timeout has elapsed,
    every reminder is triggered at least the timeout and less than the timeout
    plus one sleep after the interval began, and exactly one is triggered as
    soon as the watcher wakes in the interval with the timeout elapsed. *)
Theorem reminder_latency (s : Session) (b : bool) (p0 : Q) (evs : list event) :
  watcher s = Sleeping b ->
  paced (_last_speech_time (agent s)) p0 evs ->
  p0 + WATCHER_SLEEP_SECONDS - _last_speech_time (agent s) < SILENCE_TIMEOUT_SECONDS ->
  WATCHER_SLEEP_SECONDS == 5
  /\ SILENCE_TIMEOUT_SECONDS == 20
  /\ WATCHER_SLEEP_SECONDS < SILENCE_TIMEOUT_SECONDS
  /\ Forall (fun t =>
               SILENCE_TIMEOUT_SECONDS <= t - _last_speech_time (agent s)
               /\ t - _last_speech_time (agent s)
                  < SILENCE_TIMEOUT_SECONDS + WATCHER_SLEEP_SECONDS)
            (reminder_times (snd (run_events s evs)))
  /\ (Exists (late_wake (_last_speech_time (agent s))) evs ->
      reminders (snd (run_events s evs)) = 1%nat).
Proof.
  intros W P H.
  split; [reflexivity|]. split; [reflexivity|]. split; [reflexivity|].
  destruct evs as [|ev evs].
  - split; [constructor|]. intros X. inversion X.
  - destruct ev as [now|now m tts|now tts]; [destruct P|destruct P|].
    destruct P as [P1 [P2 P3]].
    assert (E : now - _last_speech_time (agent s) < SILENCE_TIMEOUT_SECONDS).
    { assert (P2' : now <= p0 + WATCHER_SLEEP_SECONDS).
      { apply P2. unfold WATCHER_SLEEP_SECONDS in *. lra. }
      lra. }
    rewrite run_events_cons, (step_early s now tts b W E). cbn [fst snd app].
    set (s' := {| agent := agent s; watcher := Sleeping false |}).
    split.
    + exact (run_paced_armed evs s' now eq_refl E P3).
    + intros X. inversion X as [? ? L|? ? X']; subst; [cbn in L; lra|].
      destruct (paced_chronological _ _ _ P3) as [C Q].
      destruct (run_armed_once evs s' now eq_refl C Q X') as [t [Et _]].
      unfold reminders. now rewrite Et.
Qed.

Lemma reminder_latency_witness :
  Forall (fun t => SILENCE_TIMEOUT_SECONDS <= t - 0
                   /\ t - 0 < SILENCE_TIMEOUT_SECONDS + WATCHER_SLEEP_SECONDS)
         (reminder_times (snd (run_events Scenario.greeted Scenario.first_silence)))
  /\ reminders (snd (run_events Scenario.greeted Scenario.first_silence)) = 1%nat.
Proof.
  assert (W : watcher Scenario.greeted = Sleeping false) by reflexivity.
  assert (P : paced (_last_speech_time (agent Scenario.greeted)) 3
                    Scenario.first_silence).
  { cbn. repeat split; try discriminate; intros _; discriminate. }
  assert (H : 3 + WATCHER_SLEEP_SECONDS - _last_speech_time (agent Scenario.greeted)
              < SILENCE_TIMEOUT_SECONDS) by reflexivity.
  pose proof (reminder_latency Scenario.greeted false 3 Scenario.first_silence W P H)
    as [_ [_ [_ [B X]]]].
  split; [exact B|]. apply X.
  do 3 apply Exists_cons_tl. apply Exists_cons_hd. cbn. discriminate.
Defined.



(** ** Failures of the speech engine *)




(** ** More on the echo *)

Section Echo.

Lemma lstrip_idempotent (s : text) : lstrip (lstrip s) = lstrip s.
Proof.
  destruct (lstrip s) as [|c r] eqn:E; [reflexivity|].
  cbn. now rewrite (lstrip_head _ _ _ E).
Qed.

Lemma strip_idempotent (s : text) : strip (strip s) = strip s.
Proof.
  assert (L : lstrip (strip s) = strip s).
  { destruct (strip s) as [|c r] eqn:E; [reflexivity|].
    cbn. now rewrite (strip_first _ _ _ E). }
  unfold strip at 1. rewrite L. unfold strip, rstrip.
  now rewrite rev_involutive, lstrip_idempotent.
Qed.

Lemma user_text_of_some (t : text) :
  user_text_of {| text_content := Some t |} = strip t.
Proof. unfold user_text_of. cbn. now destruct t. Qed.

Lemma truthy_false (s : text) : truthy s = false -> s = [].
Proof. destruct s; [reflexivity|discriminate]. Qed.

Lemma echo_not_reprompt (u : text) : str "You said: " ++ u <> REPROMPT_TEXT.
Proof. intros E. cbv in E. discriminate E. Qed.

End Echo.

(** X1.  Whatever the message, exactly one utterance is spoken, and it is
    either the reprompt or "You said: " followed by a piece of the transcript
    that is not empty, neither starts nor ends with white space, and is the
    transcript with white space removed at both ends and nowhere else. *)
Theorem echo_is_trimmed_transcript (self : EchoAgent) (now : Q) (tts : tts_result)
    (m : ChatMessage) :
  exists said,
    spoken (calls (on_user_turn_completed now tts m self)) = [said]
    /\ (said = REPROMPT_TEXT
        \/ exists t u pre post,
             text_content m = Some t
             /\ said = str "You said: " ++ u
             /\ t = pre ++ u ++ post /\ blank pre /\ blank post
             /\ u <> []
             /\ (forall c r, u = c :: r -> py_isspace c = false)
             /\ (forall r c, u = r ++ [c] -> py_isspace c = false)).
Proof.
  rewrite turn_calls. cbn [spoken]. eexists. split; [reflexivity|].
  destruct (truthy (user_text_of m)) eqn:T; [right|left; reflexivity].
  destruct m as [[t|]]; [|discriminate T].
  rewrite user_text_of_some in *.
  destruct (strip_split t) as [pre [post [E [B B']]]].
  exists t, (strip t), pre, post.
  repeat split; try assumption.
  - intros H. rewrite H in T. discriminate T.
  - intros c r H. exact (strip_first _ _ _ H).
  - intros r c H. exact (strip_last _ _ _ H).
Qed.

(** X2.  The handler sees a transcript only through its trimmed form: the run
    on a transcript and the run on the same transcript already trimmed are the
    same, calls and final state and outcome. *)
Theorem turn_depends_on_trimmed_transcript (self : EchoAgent) (now : Q)
    (tts : tts_result) (t : text) :
  on_user_turn_completed now tts {| text_content := Some t |} self
  = on_user_turn_completed now tts {| text_content := Some (strip t) |} self.
Proof.
  unfold on_user_turn_completed.
  now rewrite !user_text_of_some, strip_idempotent.
Qed.

(** X3.  The reply tells the trimmed transcript: two turns, in whatever state
    and at whatever time, are answered by the same utterance exactly when
    their messages have the same text once trimmed, a missing text counting
    as the empty one. *)
Theorem same_reply_same_trimmed_transcript (self1 self2 : EchoAgent) (now1 now2 : Q)
    (tts1 tts2 : tts_result) (m1 m2 : ChatMessage) :
  spoken (calls (on_user_turn_completed now1 tts1 m1 self1))
  = spoken (calls (on_user_turn_completed now2 tts2 m2 self2))
  <-> user_text_of m1 = user_text_of m2.
Proof.
  rewrite !turn_calls. cbn [spoken]. split.
  - intros E. apply (f_equal (@hd text [])) in E. cbn [hd] in E.
    destruct (truthy (user_text_of m1)) eqn:T1, (truthy (user_text_of m2)) eqn:T2.
    + exact (app_inv_head _ _ _ E).
    + now destruct (echo_not_reprompt _ E).
    + symmetry in E. now destruct (echo_not_reprompt _ E).
    + now rewrite (truthy_false _ T1), (truthy_false _ T2).
  - intros ->. reflexivity.
Qed.

(** ** Whole sessions *)

Section WholeSessions.

Lemma stamp_effects (now : Q) (effs : list effect) : map snd (stamp now effs) = effs.
Proof.
  unfold stamp. rewrite map_map. cbn [snd]. apply map_id.
Qed.

Lemma spoken_app (a b : list effect) : spoken (a ++ b) = spoken a ++ spoken b.
Proof.
  induction a as [|[msg|msg] a IH]; cbn; [reflexivity|exact IH|now rewrite IH].
Qed.

Lemma utterances_app (j1 j2 : journal) :
  utterances (j1 ++ j2) = utterances j1 ++ utterances j2.
Proof. unfold utterances. now rewrite map_app, spoken_app. Qed.

Lemma turns_cons (ev : event) (evs : list event) :
  turns (ev :: evs) = ((if is_turn ev then 1 else 0) + turns evs)%nat.
Proof. unfold turns. cbn [filter]. now destruct (is_turn ev). Qed.

(** What one event adds to the journal: a wake of a sleeping, armed watcher
    after the timeout adds the reminder, a completed turn adds its answer,
    and nothing else adds an utterance. *)
Lemma step_wake_cases (s : Session) (now : Q) (tts : tts_result) :
  (watcher s = Sleeping false
   /\ SILENCE_TIMEOUT_SECONDS <= now - _last_speech_time (agent s)
   /\ snd (step s (WatcherWake now tts))
      = stamp now [LogInfo (str "20s of silence - playing reminder");
                   Say REMINDER_TEXT])
  \/ snd (step s (WatcherWake now tts)) = [].
Proof.
  destruct (watcher s) as [|b|e] eqn:W.
  - right. rewrite step_not_sleeping; [reflexivity|]. rewrite W. discriminate.
  - destruct (Qlt_le_dec (now - _last_speech_time (agent s))
                         SILENCE_TIMEOUT_SECONDS) as [H|H].
    + right. now rewrite (step_early s now tts b W H).
    + destruct b.
      * right. now rewrite (step_spent s now tts W H).
      * left. now rewrite (step_fire s now tts W H).
  - right. rewrite step_not_sleeping; [reflexivity|]. rewrite W. discriminate.
Qed.

Lemma step_utterances (s : Session) (ev : event) :
  List.length (utterances (snd (step s ev)))
  = ((if is_turn ev then 1 else 0) + reminders (snd (step s ev)))%nat.
Proof.
  destruct ev as [now|now m tts|now tts]; cbn [is_turn].
  - reflexivity.
  - cbn [step snd]. unfold utterances, reminders.
    now rewrite turn_no_reminder, stamp_effects, turn_calls.
  - destruct (step_wake_cases s now tts) as [[_ [_ E]]|E]; rewrite E.
    + unfold reminders. rewrite fire_reminder_times. reflexivity.
    + reflexivity.
Qed.

Lemma hushed_later (s : Session) (prev now : Q) :
  hushed s prev -> prev <= now -> hushed s now.
Proof.
  intros [H|[W H]] L; [left; exact H|right]. split; [exact W|lra].
Qed.

Lemma hushed_wake (s : Session) (prev now : Q) (tts : tts_result) :
  hushed s prev -> prev <= now -> step s (WatcherWake now tts) = (s, []).
Proof.
  intros [H|[W H]] L.
  - now apply step_not_sleeping.
  - apply step_spent; [exact W|lra].
Qed.

Lemma reminders_by_turns (evs : list event) :
  (forall s prev, chronological prev evs ->
                  (reminders (snd (run_events s evs)) <= 1 + turns evs)%nat)
  /\ (forall s prev, hushed s prev -> chronological prev evs ->
                     (reminders (snd (run_events s evs)) <= turns evs)%nat).
Proof.
  induction evs as [|ev evs [IH1 IH2]].
  - split; intros; cbn; lia.
  - split.
    + intros s prev [C1 C2]. rewrite run_events_cons, turns_cons.
      cbn [fst snd]. rewrite reminders_app.
      destruct ev as [now|now m tts|now tts]; cbn [is_turn event_time] in *.
      * cbn [step fst snd]. exact (IH1 s now C2).
      * cbn [step fst snd]. unfold reminders at 1. rewrite turn_no_reminder.
        specialize (IH1 (fst (step s (UserTurnCompleted now m tts))) now C2).
        cbn [step fst] in IH1. cbn [List.length]. lia.
      * destruct (watcher s) as [|b|e] eqn:W.
        -- rewrite step_not_sleeping by (rewrite W; discriminate). cbn [fst snd].
           assert (Hs : hushed s now) by (left; rewrite W; discriminate).
           specialize (IH2 s now Hs C2). cbn. lia.
        -- destruct (Qlt_le_dec (now - _last_speech_time (agent s))
                                SILENCE_TIMEOUT_SECONDS) as [H|H].
           ++ rewrite (step_early s now tts b W H). cbn [fst snd].
              specialize (IH1 {| agent := agent s; watcher := Sleeping false |} now C2).
              cbn. lia.
           ++ destruct b.
              ** rewrite (step_spent s now tts W H). cbn [fst snd].
                 assert (Hs : hushed s now) by (right; split; assumption).
                 specialize (IH2 s now Hs C2). cbn. lia.
              ** rewrite (step_fire s now tts W H). cbn [fst snd].
                 unfold reminders at 1. rewrite fire_reminder_times. cbn [List.length].
                 match goal with
                 | |- context [run_events ?s' evs] =>
                     assert (Hs : hushed s' now)
                 end.
                 { destruct tts; [right; split; [reflexivity|exact H]|].
                   left. cbn. intros b. discriminate. }
                 specialize (IH2 _ now Hs C2). lia.
        -- rewrite step_not_sleeping by (rewrite W; discriminate). cbn [fst snd].
           assert (Hs : hushed s now) by (left; rewrite W; discriminate).
           specialize (IH2 s now Hs C2). cbn. lia.
    + intros s prev Hs [C1 C2]. rewrite run_events_cons, turns_cons.
      cbn [fst snd]. rewrite reminders_app.
      destruct ev as [now|now m tts|now tts]; cbn [is_turn event_time] in *.
      * cbn [step fst snd].
        specialize (IH2 s now (hushed_later s prev now Hs C1) C2). cbn. lia.
      * cbn [step fst snd]. unfold reminders at 1. rewrite turn_no_reminder.
        specialize (IH1 (fst (step s (UserTurnCompleted now m tts))) now C2).
        cbn [step fst] in IH1. cbn [List.length]. lia.
      * rewrite (hushed_wake s prev now tts Hs C1). cbn [fst snd].
        specialize (IH2 s now (hushed_later s prev now Hs C1) C2). cbn. lia.
Qed.

End WholeSessions.

Lemma run_events_clock (s : Session) (evs : list event) :
  agent (fst (run_events s evs))
  = match last_turn_time evs with
    | Some t => {| _last_speech_time := t |}
    | None => agent s
    end.
Proof.
  revert s. induction evs as [|ev evs IH]; intros s; [reflexivity|].
  rewrite run_events_cons. cbn [fst last_turn_time]. rewrite IH.
  destruct (last_turn_time evs) as [t|]; [reflexivity|].
  destruct ev as [now|now m tts|now tts]; cbn [is_turn event_time].
  - reflexivity.
  - reflexivity.
  - now apply step_quiet_agent.
Qed.

(** X4.  After any sequence of events the timestamp is the time of the last
    completed turn, whatever the engine did with the answers and however the
    watcher ran; without a completed turn it is what it was. *)
Theorem clock_is_last_turn (s : Session) (evs : list event) :
  agent (fst (run_events s evs))
  = match last_turn_time evs with
    | Some t => {| _last_speech_time := t |}
    | None => agent s
    end.
Proof. exact (run_events_clock s evs). Qed.

(** X5.  A wake of the watcher triggers the reminder only if the watcher is
    armed and at least the timeout has passed since the last completed turn
    of the session so far, or since the timestamp the session began with if
    no turn has completed; it then triggers it once. *)
Theorem reminder_never_early (s : Session) (pre : list event) (now : Q)
    (tts : tts_result) :
  reminder_times (snd (step (fst (run_events s pre)) (WatcherWake now tts))) <> [] ->
  SILENCE_TIMEOUT_SECONDS
  <= now - match last_turn_time pre with
           | Some u => u
           | None => _last_speech_time (agent s)
           end
  /\ watcher (fst (run_events s pre)) = Sleeping false
  /\ reminder_times (snd (step (fst (run_events s pre)) (WatcherWake now tts))) = [now].
Proof.
  intros N.
  destruct (step_wake_cases (fst (run_events s pre)) now tts) as [[W [H E]]|E].
  - rewrite E, fire_reminder_times. split; [|split; [exact W|reflexivity]].
    rewrite run_events_clock in H.
    destruct (last_turn_time pre); exact H.
  - rewrite E in N. now destruct N.
Qed.

Lemma reminder_never_early_witness :
  SILENCE_TIMEOUT_SECONDS <= 52 - 30
  /\ watcher (fst (run_events Scenario.fired
                     (UserTurnCompleted 30 (Scenario.utterance "one") Played
                      :: Scenario.second_silence)))
     = Sleeping false
  /\ reminder_times
       (snd (step (fst (run_events Scenario.fired
                          (UserTurnCompleted 30 (Scenario.utterance "one") Played
                           :: Scenario.second_silence)))
               (WatcherWake 52 Played)))
     = [52].
Proof.
  apply (reminder_never_early Scenario.fired
           (UserTurnCompleted 30 (Scenario.utterance "one") Played
            :: Scenario.second_silence) 52 Played).
  vm_compute. discriminate.
Defined.

(** X6.  As long as the clock does not run backwards, a session triggers at
    most one reminder more than it has completed turns: between two reminders
    a turn completes. *)
Theorem reminders_bounded_by_turns (s : Session) (prev : Q) (evs : list event) :
  chronological prev evs ->
  (reminders (snd (run_events s evs)) <= 1 + turns evs)%nat.
Proof. intros C. exact (proj1 (reminders_by_turns evs) s prev C). Qed.

Lemma reminders_bounded_by_turns_witness :
  (reminders (snd (run_events Scenario.greeted Scenario.resumed))
   <= 1 + turns Scenario.resumed)%nat.
Proof.
  apply (reminders_bounded_by_turns Scenario.greeted 3 Scenario.resumed).
  cbn. repeat split; discriminate.
Defined.

Lemma run_without_watcher (s : Session) (evs : list event) :
  (forall b, watcher s <> Sleeping b) ->
  watcher (fst (run_events s evs)) = watcher s
  /\ reminder_times (snd (run_events s evs)) = []
  /\ List.length (utterances (snd (run_events s evs))) = turns evs.
Proof.
  revert s. induction evs as [|ev evs IH]; intros s W; [repeat split|].
  rewrite run_events_cons, turns_cons. cbn [fst snd].
  rewrite reminder_times_app, utterances_app, length_app, step_utterances.
  assert (E : watcher (fst (step s ev)) = watcher s
              /\ reminder_times (snd (step s ev)) = []).
  { destruct ev as [now|now m tts|now tts].
    - split; reflexivity.
    - split; [reflexivity|]. cbn [step snd]. apply turn_no_reminder.
    - rewrite (step_not_sleeping s now tts W). split; reflexivity. }
  destruct E as [E1 E2].
  assert (W' : forall b, watcher (fst (step s ev)) <> Sleeping b)
    by (rewrite E1; exact W).
  destruct (IH _ W') as [I1 [I2 I3]].
  unfold reminders. rewrite I1, I2, I3, E1, E2. cbn [List.length app].
  repeat split. lia.
Qed.

(** X7.  A watcher that is not sleeping, because it was never spawned or
    because an exception ended it, stays so through any events, completed
    turns included: no reminder is triggered any more, while every completed
    turn is still answered by one utterance. *)
Theorem watcher_never_restarts (s : Session) (evs : list event) :
  (forall b, watcher s <> Sleeping b) ->
  watcher (fst (run_events s evs)) = watcher s
  /\ reminder_times (snd (run_events s evs)) = []
  /\ List.length (utterances (snd (run_events s evs))) = turns evs.
Proof. exact (run_without_watcher s evs). Qed.

Lemma watcher_never_restarts_witness :
  watcher (fst (run_events
                  (fst (run_events Scenario.greeted
                          (Scenario.before_turn ++ [WatcherWake 23 EngineFailed])))
                  Scenario.resumed))
  = Died SynthesisError
  /\ reminder_times
       (snd (run_events
               (fst (run_events Scenario.greeted
                       (Scenario.before_turn ++ [WatcherWake 23 EngineFailed])))
               Scenario.resumed))
     = []
  /\ List.length
       (utterances
          (snd (run_events
                  (fst (run_events Scenario.greeted
                          (Scenario.before_turn ++ [WatcherWake 23 EngineFailed])))
                  Scenario.resumed)))
     = turns Scenario.resumed.
Proof.
  apply (watcher_never_restarts
           (fst (run_events Scenario.greeted
                   (Scenario.before_turn ++ [WatcherWake 23 EngineFailed])))
           Scenario.resumed).
  intros b. vm_compute. discriminate.
Defined.

(** X8.  When the engine fails on the greeting, [on_enter] is left before the
    watcher is spawned: whatever follows, the session never triggers a
    reminder, and it speaks once for the greeting and once for each completed
    turn. *)
Theorem failed_greeting_no_watchdog (t_init t_enter : Q) (evs : list event) :
  watcher (fst (run_session t_init t_enter EngineFailed evs)) = NotStarted
  /\ reminders (snd (run_session t_init t_enter EngineFailed evs)) = 0%nat
  /\ List.length (utterances (snd (run_session t_init t_enter EngineFailed evs)))
     = (1 + turns evs)%nat.
Proof.
  unfold run_session.
  destruct (session_start t_init t_enter EngineFailed) as [s0 j0] eqn:E0.
  assert (S0 : s0 = {| agent := EchoAgent_init t_init; watcher := NotStarted |})
    by (change s0 with (fst (s0, j0)); now rewrite <- E0).
  assert (J0 : j0 = stamp t_enter [LogInfo (str "EchoAgent entered session");
                                   Say GREETING_TEXT])
    by (change j0 with (snd (s0, j0)); now rewrite <- E0).
  assert (W : forall b, watcher s0 <> Sleeping b) by (subst s0; discriminate).
  destruct (run_without_watcher s0 evs W) as [I1 [I2 I3]].
  destruct (run_events s0 evs) as [s1 j1]. cbn [fst snd] in *.
  rewrite I1, reminders_app, utterances_app, length_app, I3.
  unfold reminders at 2. rewrite I2. subst s0 j0.
  split; [reflexivity|]. split; [|reflexivity].
  unfold reminders, reminder_times, stamp. cbn [map filter snd is_reminder].
  pose proof greeting_not_reminder as G. cbn [is_reminder] in G.
  now rewrite G.
Qed.

(** X9.  In any session the agent speaks exactly once for each completed turn
    and once for each reminder, and never otherwise: the utterances of a run
    are as many as its completed turns and its reminders together. *)
Theorem utterances_are_answers_and_reminders (s : Session) (evs : list event) :
  List.length (utterances (snd (run_events s evs)))
  = (turns evs + reminders (snd (run_events s evs)))%nat.
Proof.
  revert s. induction evs as [|ev evs IH]; intros s; [reflexivity|].
  rewrite run_events_cons, turns_cons. cbn [fst snd].
  rewrite utterances_app, reminders_app, length_app, step_utterances, IH. lia.
Qed.

(** ** The reminder's await *)

Section Await.

Lemma fine_run_cons (f : FineSession) (ev : fine_event) (evs : list fine_event) :
  fine_run f (ev :: evs) =
  (fst (fine_run (fst (fine_step f ev)) evs),
   snd (fine_step f ev) ++ snd (fine_run (fst (fine_step f ev)) evs)).
Proof.
  cbn [fine_run]. destruct (fine_step f ev) as [f1 j1]. cbn [fst snd].
  destruct (fine_run f1 evs) as [f2 j2]. reflexivity.
Qed.

Lemma fine_run_app (evs1 evs2 : list fine_event) (f : FineSession) :
  fine_run f (evs1 ++ evs2) =
  (fst (fine_run (fst (fine_run f evs1)) evs2),
   snd (fine_run f evs1) ++ snd (fine_run (fst (fine_run f evs1)) evs2)).
Proof.
  revert f. induction evs1 as [|ev evs1 IH]; intros f.
  - cbn [app fine_run fst snd]. now destruct (fine_run f evs2).
  - cbn [app]. rewrite !fine_run_cons, IH. cbn [fst snd].
    now rewrite app_assoc.
Qed.

(** Events other than wakes do the same at both grains, whatever the watcher
    is doing, and leave the watcher where it is. *)
Lemma fine_between (during : list event) :
  Forall (fun ev => is_wake ev = false) during ->
  forall (s : Session) (w : watcher_point),
    fine_run {| fine_agent := agent s; fine_watcher := w |} (map fine_of during)
    = ({| fine_agent := agent (fst (run_events s during)); fine_watcher := w |},
       snd (run_events s during))
    /\ watcher (fst (run_events s during)) = watcher s.
Proof.
  induction 1 as [|ev during Hev _ IH]; intros s w; [split; reflexivity|].
  cbn [map]. rewrite fine_run_cons, run_events_cons. cbn [fst snd].
  destruct ev as [now|now m tts|now tts]; [| |discriminate Hev].
  - cbn [fine_of fine_step step fst snd app].
    destruct (IH s w) as [E W]. rewrite E. split; [reflexivity|exact W].
  - cbn [fine_of fine_step step fst snd fine_agent fine_watcher].
    destruct (IH {| agent := self_after (on_user_turn_completed now tts m (agent s));
                    watcher := watcher s |} w) as [E W].
    cbn [agent watcher] in E, W. rewrite E. split; [reflexivity|exact W].
Qed.

Lemma refine_session (a : EchoAgent) (w : watcher_task) :
  refine {| agent := a; watcher := w |}
  = {| fine_agent := a;
       fine_watcher := match w with
                       | NotStarted => Unborn
                       | Sleeping b => Asleep b
                       | Died e => Ended e
                       end |}.
Proof. reflexivity. Qed.

End Await.

(** X10.  Running the watcher's loop body in one piece is sound.  Let the
    sleep return, then any number of turns complete and speech starts occur
    while the reminder, if there is one, is being awaited, and only then the
    [await] return or raise: the session ends in the same state, with the same
    calls made in the same order, as when the whole loop body runs first and
    the other events after it. *)
Theorem reminder_await_is_atomic (s : Session) (now : Q) (tts : tts_result)
    (during : list event) :
  Forall (fun ev => is_wake ev = false) during ->
  fine_run (refine s) (SleepOver now :: map fine_of during ++ [SayOver tts])
  = (refine (fst (run_events s (WatcherWake now tts :: during))),
     snd (run_events s (WatcherWake now tts :: during))).
Proof.
  intros D.
  rewrite fine_run_cons, fine_run_app, run_events_cons. cbn [fst snd].
  destruct s as [a w]. rewrite refine_session.
  assert (Quiet : forall w' wp,
            wp <> InSay ->
            wp = match w' with
                 | NotStarted => Unborn
                 | Sleeping b => Asleep b
                 | Died e => Ended e
                 end ->
            (fst (fine_run
                    (fst (fine_run {| fine_agent := a; fine_watcher := wp |}
                            (map fine_of during)))
                    [SayOver tts]),
             [] ++ snd (fine_run {| fine_agent := a; fine_watcher := wp |}
                          (map fine_of during))
             ++ snd (fine_run
                       (fst (fine_run {| fine_agent := a; fine_watcher := wp |}
                               (map fine_of during)))
                       [SayOver tts]))
            = (refine (fst (run_events {| agent := a; watcher := w' |} during)),
               [] ++ snd (run_events {| agent := a; watcher := w' |} during))).
  { intros w' wp N E.
    destruct (fine_between during D {| agent := a; watcher := w' |} wp) as [F W].
    cbn [agent watcher] in F, W. rewrite F. cbn [fst snd].
    destruct (run_events {| agent := a; watcher := w' |} during) as [[a1 w1] j1].
    cbn [fst snd agent watcher] in *. subst w1. rewrite refine_session, <- E.
    destruct wp; [| |now destruct N|]; cbn; now rewrite app_nil_r. }
  destruct w as [|b|e].
  - cbn [fine_step fine_watcher step watcher fst snd].
    apply (Quiet NotStarted Unborn); [discriminate|reflexivity].
  - destruct (Qlt_le_dec (now - _last_speech_time a) SILENCE_TIMEOUT_SECONDS)
      as [H|H].
    + assert (Hb : Qle_bool SILENCE_TIMEOUT_SECONDS (now - _last_speech_time a) = false)
        by (apply Qleb_gt; exact H).
      rewrite (step_early {| agent := a; watcher := Sleeping b |} now tts b eq_refl H).
      cbn [fine_step fine_watcher fine_agent fst snd agent]. rewrite Hb.
      cbn [andb]. rewrite (proj2 (Qltb_lt _ _) H). cbn [andb].
      destruct b; cbn [fst snd];
        apply (Quiet (Sleeping false) (Asleep false)); try discriminate; reflexivity.
    + assert (Hb : Qle_bool SILENCE_TIMEOUT_SECONDS (now - _last_speech_time a) = true)
        by (apply Qle_bool_iff; exact H).
      destruct b.
      * rewrite (step_spent {| agent := a; watcher := Sleeping true |} now tts
                   eq_refl H).
        cbn [fine_step fine_watcher fine_agent fst snd agent]. rewrite Hb.
        cbn [andb negb]. rewrite (proj2 (Qltb_ge _ _) H). cbn [andb fst snd].
        apply (Quiet (Sleeping true) (Asleep true)); [discriminate|reflexivity].
      * rewrite (step_fire {| agent := a; watcher := Sleeping false |} now tts
                   eq_refl H).
        cbn [fine_step fine_watcher fine_agent fst snd agent]. rewrite Hb.
        cbn [andb negb fst snd].
        set (w' := match tts with
                   | Played => Sleeping true
                   | EngineFailed => Died SynthesisError
                   end).
        destruct (fine_between during D {| agent := a; watcher := w' |} InSay)
          as [F W].
        cbn [agent watcher] in F, W. rewrite F. cbn [fst snd].
        destruct (run_events {| agent := a; watcher := w' |} during) as [[a1 w1] j1].
        cbn [fst snd agent watcher] in *. subst w1. rewrite refine_session.
        cbn [fine_run fine_step fine_watcher fine_agent]. unfold w'.
        destruct tts; cbn; now rewrite app_nil_r.
  - cbn [fine_step fine_watcher step watcher fst snd].
    apply (Quiet (Died e) (Ended e)); [discriminate|reflexivity].
Qed.

Lemma reminder_await_is_atomic_witness :
  fine_run (refine (fst (run_events Scenario.greeted Scenario.before_turn)))
    (SleepOver 23
     :: map fine_of [SpeechStarted 24;
                     UserTurnCompleted 26 (Scenario.utterance "wait") Played]
     ++ [SayOver Played])
  = (refine (fst (run_events (fst (run_events Scenario.greeted Scenario.before_turn))
                    (WatcherWake 23 Played
                     :: [SpeechStarted 24;
                         UserTurnCompleted 26 (Scenario.utterance "wait") Played]))),
     snd (run_events (fst (run_events Scenario.greeted Scenario.before_turn))
            (WatcherWake 23 Played
             :: [SpeechStarted 24;
                 UserTurnCompleted 26 (Scenario.utterance "wait") Played]))).
Proof.
  apply (reminder_await_is_atomic
           (fst (run_events Scenario.greeted Scenario.before_turn)) 23 Played
           [SpeechStarted 24; UserTurnCompleted 26 (Scenario.utterance "wait") Played]).
  repeat constructor.
Defined.

(** ** The worker *)

Section WorkerFacts.

Import Worker.

Lemma getitem_setitem_same (d : dict) (k : string) (v : object) :
  getitem (setitem d k v) k = Some v.
Proof.
  induction d as [|[k' v'] d IH]; cbn.
  - now rewrite String.eqb_refl.
  - destruct (String.eqb k' k) eqn:E; cbn.
    + now rewrite String.eqb_refl.
    + now rewrite E.
Qed.

Lemma getitem_setitem_other (d : dict) (k k0 : string) (v : object) :
  k0 <> k -> getitem (setitem d k v) k0 = getitem d k0.
Proof.
  intros N. induction d as [|[k' v'] d IH]; cbn.
  - destruct (String.eqb k k0) eqn:E; [|reflexivity].
    apply String.eqb_eq in E. now destruct N.
  - destruct (String.eqb k' k) eqn:E; cbn.
    + apply String.eqb_eq in E. subst k'.
      destruct (String.eqb k k0) eqn:E0; [|reflexivity].
      apply String.eqb_eq in E0. now destruct N.
    + now rewrite IH.
Qed.

End WorkerFacts.

(** X11.  After [prewarm], whatever [userdata] held before, [entrypoint] never
    raises [KeyError]; and when no call into the framework raises it logs,
    connects, waits for the participant, builds the session around the very
    object [prewarm] stored, with the "nova-2" and "aura-asteria-en" models,
    starts an agent whose timestamp is the clock reading then taken, and
    waits for ever. *)
Theorem entrypoint_after_prewarm (w : Worker.World) (proc : Worker.JobProcess)
    (loaded : Worker.object) :
  (forall key,
      snd (Worker.entrypoint w (Worker.prewarm loaded proc))
      <> Worker.Raises (Worker.KeyError key))
  /\ (Worker.calm w ->
      Worker.entrypoint w (Worker.prewarm loaded proc)
      = ([Worker.Info (str "Agent joining room: " ++ Worker.room_name w);
          Worker.Connect;
          Worker.Info (str "Waiting for participant...");
          Worker.WaitForParticipant;
          Worker.Info (str "Participant connected: " ++ Worker.participant_identity w);
          Worker.STT "nova-2";
          Worker.TTS "aura-asteria-en";
          Worker.AgentSession loaded;
          Worker.Start (EchoAgent_init (Worker.clock w));
          Worker.Info (str "Agent session started.")],
         Worker.WaitsForever)).
Proof.
  unfold Worker.entrypoint, Worker.entrypoint_body, Worker.lookup, Worker.prewarm.
  cbn [Worker.userdata]. rewrite getitem_setitem_same.
  split.
  - intros key. unfold Worker.wbind, Worker.call, Worker.info. cbn [fst snd].
    destruct (Worker.raises w Worker.CtxConnect); cbn [fst snd]; [discriminate|].
    destruct (Worker.raises w Worker.CtxWaitForParticipant); cbn [fst snd];
      [discriminate|].
    destruct (Worker.raises w Worker.DeepgramSTT); cbn [fst snd]; [discriminate|].
    destruct (Worker.raises w Worker.DeepgramTTS); cbn [fst snd]; [discriminate|].
    destruct (Worker.raises w Worker.NewAgentSession); cbn [fst snd]; [discriminate|].
    destruct (Worker.raises w Worker.SessionStart); cbn [fst snd]; discriminate.
  - intros C. unfold Worker.wbind, Worker.call, Worker.info. cbn [fst snd].
    rewrite !C. reflexivity.
Qed.

Lemma entrypoint_after_prewarm_witness :
  Worker.entrypoint
    {| Worker.room_name := str "demo"; Worker.participant_identity := str "ada";
       Worker.clock := 100; Worker.raises := fun _ => false |}
    (Worker.prewarm 7%N {| Worker.userdata := [("vad"%string, 3%N)] |})
  = ([Worker.Info (str "Agent joining room: demo");
      Worker.Connect;
      Worker.Info (str "Waiting for participant...");
      Worker.WaitForParticipant;
      Worker.Info (str "Participant connected: ada");
      Worker.STT "nova-2";
      Worker.TTS "aura-asteria-en";
      Worker.AgentSession 7%N;
      Worker.Start (EchoAgent_init 100);
      Worker.Info (str "Agent session started.")],
     Worker.WaitsForever).
Proof.
  apply (proj2 (entrypoint_after_prewarm
                  {| Worker.room_name := str "demo";
                     Worker.participant_identity := str "ada";
                     Worker.clock := 100; Worker.raises := fun _ => false |}
                  {| Worker.userdata := [("vad"%string, 3%N)] |} 7%N)).
  intros c. reflexivity.
Defined.

(** X12.  When [userdata] has no "vad" entry and connecting and waiting for
    the participant succeed, [entrypoint] connects, waits and logs the
    participant, and then raises [KeyError] for "vad": no speech engine, no
    session and no agent has been created. *)
Theorem entrypoint_without_vad (w : Worker.World) (proc : Worker.JobProcess) :
  Worker.getitem (Worker.userdata proc) "vad" = None ->
  Worker.raises w Worker.CtxConnect = false ->
  Worker.raises w Worker.CtxWaitForParticipant = false ->
  Worker.entrypoint w proc
  = ([Worker.Info (str "Agent joining room: " ++ Worker.room_name w);
      Worker.Connect;
      Worker.Info (str "Waiting for participant...");
      Worker.WaitForParticipant;
      Worker.Info (str "Participant connected: " ++ Worker.participant_identity w)],
     Worker.Raises (Worker.KeyError "vad")).
Proof.
  intros G C1 C2.
  unfold Worker.entrypoint, Worker.entrypoint_body, Worker.lookup,
    Worker.wbind, Worker.call, Worker.info.
  rewrite G, C1. cbn [fst snd]. rewrite C2. reflexivity.
Qed.

Lemma entrypoint_without_vad_witness :
  Worker.entrypoint
    {| Worker.room_name := str "demo"; Worker.participant_identity := str "ada";
       Worker.clock := 100; Worker.raises := fun _ => false |}
    {| Worker.userdata := [("stt"%string, 3%N)] |}
  = ([Worker.Info (str "Agent joining room: demo");
      Worker.Connect;
      Worker.Info (str "Waiting for participant...");
      Worker.WaitForParticipant;
      Worker.Info (str "Participant connected: ada")],
     Worker.Raises (Worker.KeyError "vad")).
Proof.
  apply (entrypoint_without_vad
           {| Worker.room_name := str "demo"; Worker.participant_identity := str "ada";
              Worker.clock := 100; Worker.raises := fun _ => false |}
           {| Worker.userdata := [("stt"%string, 3%N)] |});
    reflexivity.
Defined.

(** X13.  [entrypoint] starts an agent only once it has connected, the
    participant has joined, "vad" was found in [userdata], and the speech
    engines and the session around that "vad" object have been created; the
    agent it starts is a fresh one with the clock reading as its timestamp. *)
Theorem agent_started_only_when_ready (w : Worker.World) (proc : Worker.JobProcess)
    (a : EchoAgent) :
  In (Worker.Start a) (fst (Worker.entrypoint w proc)) ->
  a = EchoAgent_init (Worker.clock w)
  /\ Worker.raises w Worker.CtxConnect = false
  /\ Worker.raises w Worker.CtxWaitForParticipant = false
  /\ Worker.raises w Worker.DeepgramSTT = false
  /\ Worker.raises w Worker.DeepgramTTS = false
  /\ Worker.raises w Worker.NewAgentSession = false
  /\ exists vad,
       Worker.getitem (Worker.userdata proc) "vad" = Some vad
       /\ In (Worker.AgentSession vad) (fst (Worker.entrypoint w proc)).
Proof.
  unfold Worker.entrypoint, Worker.entrypoint_body, Worker.lookup,
    Worker.wbind, Worker.call, Worker.info.
  cbn [fst snd].
  destruct (Worker.raises w Worker.CtxConnect); cbn [fst snd app In];
    [intuition discriminate|].
  destruct (Worker.raises w Worker.CtxWaitForParticipant); cbn [fst snd app In];
    [intuition discriminate|].
  destruct (Worker.getitem (Worker.userdata proc) "vad") as [vad|];
    cbn [fst snd app In]; [|intuition discriminate].
  destruct (Worker.raises w Worker.DeepgramSTT); cbn [fst snd app In];
    [intuition discriminate|].
  destruct (Worker.raises w Worker.DeepgramTTS); cbn [fst snd app In];
    [intuition discriminate|].
  destruct (Worker.raises w Worker.NewAgentSession); cbn [fst snd app In];
    [intuition discriminate|].
  intros H. repeat split.
  - destruct (Worker.raises w Worker.SessionStart); cbn [fst snd app In] in H;
      intuition congruence.
  - exists vad. split; [reflexivity|].
    destruct (Worker.raises w Worker.SessionStart); cbn [fst snd app In]; tauto.
Qed.

Lemma agent_started_only_when_ready_witness :
  EchoAgent_init 100 = EchoAgent_init 100
  /\ exists vad,
       Worker.getitem [("vad"%string, 3%N)] "vad" = Some vad
       /\ In (Worker.AgentSession vad)
            (fst (Worker.entrypoint
                    {| Worker.room_name := str "demo";
                       Worker.participant_identity := str "ada";
                       Worker.clock := 100; Worker.raises := fun _ => false |}
                    {| Worker.userdata := [("vad"%string, 3%N)] |})).
Proof.
  pose proof (agent_started_only_when_ready
                {| Worker.room_name := str "demo";
                   Worker.participant_identity := str "ada";
                   Worker.clock := 100; Worker.raises := fun _ => false |}
                {| Worker.userdata := [("vad"%string, 3%N)] |}
                (EchoAgent_init 100)) as H.
  destruct H as [H1 [_ [_ [_ [_ [_ H2]]]]]].
  - cbn. tauto.
  - split; [exact H1|exact H2].
Defined.

(** X14.  [prewarm] stores the loaded object under "vad", replacing what was
    there, and leaves every other entry of [userdata] as it was. *)
Theorem prewarm_sets_only_vad (loaded : Worker.object) (proc : Worker.JobProcess)
    (key : string) :
  Worker.getitem (Worker.userdata (Worker.prewarm loaded proc)) key
  = if String.eqb key "vad" then Some loaded
    else Worker.getitem (Worker.userdata proc) key.
Proof.
  unfold Worker.prewarm. cbn [Worker.userdata].
  destruct (String.eqb key "vad") eqn:E.
  - apply String.eqb_eq in E. subst key. apply getitem_setitem_same.
  - apply getitem_setitem_other. intros ->. now rewrite String.eqb_refl in E.
Qed.
